(** * The appointment dashboard: cleaning pipeline and chart callback

    A shallow embedding of [project.py].  The script has two parts:

    - the module-level cleaning pipeline (lines 34-52), which turns the raw
      CSV table into the cleaned table [df];
    - the Dash callback [update_charts] (lines 172-231), which copies [df],
      filters the copy and builds six Plotly figures from it.

    Data frames are lists of rows, in row order.  The callback works on
    pandas objects that live on the Python heap, so it is modelled in a state
    monad over a store of frames; pandas and Plotly calls are modelled by
    what they compute on the columns the script hands them. *)

From Stdlib Require Import ZArith Ascii.
From Stdlib Require OrdersEx.
From stdpp Require Import base tactics option list sorting strings.

Local Open Scope Z_scope.

(** ** Strings

    A [string] is read as a sequence of code points below 256. *)
Module Str.

(** [str.isspace] on one character: TAB..CR, FS..US, space, NEL and NBSP. *)
Definition isspace (c : ascii) : bool :=
  let n := nat_of_ascii c in
  ((9 <=? n) && (n <=? 13) || (28 <=? n) && (n <=? 32)
   || (n =? 133) || (n =? 160))%nat.

Fixpoint lstrip (cs : list ascii) : list ascii :=
  match cs with
  | c :: cs' => if isspace c then lstrip cs' else cs
  | [] => []
  end.

Definition rstrip (cs : list ascii) : list ascii := rev (lstrip (rev cs)).

(** [str.strip()]: leading and trailing whitespace removed. *)
Definition strip (s : string) : string :=
  String.string_of_list_ascii
    (rstrip (lstrip (String.list_ascii_of_string s))).

End Str.

(** ** Timestamps

    A [datetime64[ns]] value: nanoseconds since 1970-01-01T00:00:00. *)
Module Time.

Definition Timestamp := Z.

Definition NS_PER_SECOND : Z := 1000000000.
Definition NS_PER_DAY : Z := 86400 * NS_PER_SECOND.

(** Days since the epoch of a proleptic Gregorian date. *)
Definition days_from_civil (y m d : Z) : Z :=
  let y' := if m <=? 2 then y - 1 else y in
  let era := y' / 400 in
  let yoe := y' - era * 400 in
  let doy := (153 * (if 2 <? m then m - 3 else m + 9) + 2) / 5 + d - 1 in
  let doe := yoe * 365 + yoe / 4 - yoe / 100 + doy in
  era * 146097 + doe - 719468.

Definition is_leap (y : Z) : bool :=
  (y mod 4 =? 0) && (negb (y mod 100 =? 0) || (y mod 400 =? 0)).

Definition days_in_month (y m : Z) : Z :=
  if m =? 2 then (if is_leap y then 29 else 28)
  else if (m =? 4) || (m =? 6) || (m =? 9) || (m =? 11) then 30
  else 31.

Definition digit (c : ascii) : option Z :=
  let n := Z.of_nat (nat_of_ascii c) in
  if (48 <=? n) && (n <=? 57) then Some (n - 48) else None.

Fixpoint number (acc : Z) (cs : list ascii) : option Z :=
  match cs with
  | [] => Some acc
  | c :: cs' => d ← digit c; number (10 * acc + d) cs'
  end.

(** [YYYY-MM-DD] to days since the epoch. *)
Definition parse_date (cs : list ascii) : option Z :=
  match cs with
  | [y1; y2; y3; y4; "-"; m1; m2; "-"; d1; d2]%char =>
      y ← number 0 [y1; y2; y3; y4];
      m ← number 0 [m1; m2];
      d ← number 0 [d1; d2];
      if (1 <=? m) && (m <=? 12) && (1 <=? d) && (d <=? days_in_month y m)
      then Some (days_from_civil y m d) else None
  | _ => None
  end.

(** [HH:MM:SS] to seconds since midnight. *)
Definition parse_time (cs : list ascii) : option Z :=
  match cs with
  | [h1; h2; ":"; m1; m2; ":"; s1; s2]%char =>
      h ← number 0 [h1; h2];
      m ← number 0 [m1; m2];
      s ← number 0 [s1; s2];
      if (h <=? 23) && (m <=? 59) && (s <=? 59)
      then Some (h * 3600 + m * 60 + s) else None
  | _ => None
  end.

(** [pd.to_datetime] on one cell.  The data set writes every day as
    [YYYY-MM-DDTHH:MM:SSZ], an instant in UTC, and this is the one spelling
    modelled.  A cell the model accepts is accepted by pandas with the same
    instant, and a column of such cells is converted as a whole.  The
    converse does not hold: pandas reads further spellings, which the model
    leaves out and answers with [None], so only a result [Some t] says
    something about the script. *)
Definition to_datetime (s : string) : option Timestamp :=
  let cs := String.list_ascii_of_string s in
  day ← parse_date (take 10 cs);
  match drop 10 cs with
  | "T"%char :: rest =>
      sec ← parse_time (take 8 rest);
      match drop 8 rest with
      | ["Z"%char] => Some (day * NS_PER_DAY + sec * NS_PER_SECOND)
      | _ => None
      end
  | _ => None
  end.

(** [Timestamp.date()] as a day number: the calendar day the instant
    falls on. *)
Definition date (t : Timestamp) : Z := t / NS_PER_DAY.

(** [Timedelta.days] of [a - s]: whole days, rounded towards minus
    infinity, so that [-8 hours] has [days = -1]. *)
Definition timedelta_days (a s : Timestamp) : Z := (a - s) / NS_PER_DAY.

Definition weekday_names : list string :=
  ["Monday"; "Tuesday"; "Wednesday"; "Thursday"; "Friday"; "Saturday";
   "Sunday"].

(** [Timestamp.day_name()]; 1970-01-01 was a Thursday. *)
Definition day_name (t : Timestamp) : string :=
  default "" (weekday_names !! Z.to_nat ((date t + 3) mod 7)).

End Time.

(** ** The tables

    One record per row.  Only the columns the script reads are kept; the
    identifier columns and the flags it never touches ride along unchanged
    and are left out. *)
Module Table.
Import Time.

(** A row of the CSV file as [pd.read_csv] delivers it (line 11) for a file
    like the data set: integer columns as 64-bit integers, the other columns
    as text in every cell.  A file in which a cell of a text column is empty
    or spelled like a missing value, or in which a whole text column looks
    numeric, is read differently (a missing value, a numeric column) and is
    outside this model; lines 46-48 then see no text in such a cell or
    column. *)
Record RawRow := {
  raw_Gender : string;
  raw_ScheduledDay : string;
  raw_AppointmentDay : string;
  raw_Age : Z;
  raw_Neighbourhood : string;
  raw_Hipertension : Z;
  raw_Diabetes : Z;
  raw_Alcoholism : Z;
  raw_No_show : string
}.

(** A row once both day columns are timestamps (after line 38). *)
Record Stamped := {
  st_raw : RawRow;
  st_ScheduledDay : Timestamp;
  st_AppointmentDay : Timestamp
}.

(** A row of the cleaned table [df] and of the frames the callback derives
    from it.  [No_show_flag] is [None] where pandas holds NaN.  The two
    columns the callback adds, [HasChronic] and [ChronicCondition], are
    [None] in a frame that does not have them. *)
Record Row := {
  Gender : string;
  ScheduledDay : Timestamp;
  AppointmentDay : Timestamp;
  Age : Z;
  Neighbourhood : string;
  Hipertension : Z;
  Diabetes : Z;
  Alcoholism : Z;
  No_show : string;
  DaysDiff : Z;
  No_show_flag : option Z;
  AppointmentWeekday : string;
  HasChronic : option Z;
  ChronicCondition : option string
}.

Abbreviation Frame := (list Row).

End Table.

(** ** The cleaning pipeline (lines 34-52) *)
Module Pipeline.
Import Time Table.

(** Lines 36 and 38 on one row.  [pd.to_datetime] raises on the first cell
    it cannot parse; [None] is that exception.  The script converts one
    column, then the other; it stops with the same exception either way as
    soon as one of the two cells of some row is rejected. *)
Definition stamp (r : RawRow) : option Stamped :=
  s ← to_datetime (raw_ScheduledDay r);
  a ← to_datetime (raw_AppointmentDay r);
  Some {| st_raw := r; st_ScheduledDay := s; st_AppointmentDay := a |}.

(** Line 40: [(df['AppointmentDay'] - df['ScheduledDay']).dt.days]. *)
Definition days_diff (p : Stamped) : Z :=
  timedelta_days (st_AppointmentDay p) (st_ScheduledDay p).

(** Line 50: [.map({'No': 0, 'Yes': 1})]; a key the dictionary lacks maps
    to NaN. *)
Definition no_show_flag (s : string) : option Z :=
  if decide (s = "No") then Some 0
  else if decide (s = "Yes") then Some 1
  else None.

(** Lines 40 and 46-52 on one surviving row. *)
Definition derive (p : Stamped) : Row :=
  let r := st_raw p in
  let no_show := Str.strip (raw_No_show r) in
  {| Gender := Str.strip (raw_Gender r);
     ScheduledDay := st_ScheduledDay p;
     AppointmentDay := st_AppointmentDay p;
     Age := raw_Age r;
     Neighbourhood := Str.strip (raw_Neighbourhood r);
     Hipertension := raw_Hipertension r;
     Diabetes := raw_Diabetes r;
     Alcoholism := raw_Alcoholism r;
     No_show := no_show;
     DaysDiff := days_diff p;
     No_show_flag := no_show_flag no_show;
     AppointmentWeekday := day_name (st_AppointmentDay p);
     HasChronic := None;
     ChronicCondition := None |}.

(** The whole pipeline, from the table read at line 11 to the table written
    at line 58.  A result [Some df] is a run of the script that completes
    with the table [df].  The result is [None] when the model cannot read a
    day of a row that passed the age filter: the script then raises, or
    reads a spelling the model leaves out. *)
Definition clean (raw : list RawRow) : option Frame :=
  let df := filter (λ r, 0 ≤ raw_Age r) raw in          (* line 34 *)
  df ← mapM stamp df;                                    (* lines 36, 38 *)
  let df := filter (λ p, 0 ≤ days_diff p) df in          (* lines 40, 42 *)
  Some (derive <$> df).                                  (* lines 46-52 *)

(** What the spec's data model asks of [days_diff]: the appointment's
    calendar day minus the booking's calendar day. *)
Definition calendar_days_diff (p : Stamped) : Z :=
  date (st_AppointmentDay p) - date (st_ScheduledDay p).

End Pipeline.

(** ** pandas objects on the heap

    A [DataFrame] is an object: two variables may name the same one, and
    [dff[col] = ...] changes the object in place.  The store holds every
    frame that has been created; a location is an index into it. *)
Module Pandas.
Import Table.

Definition loc := nat.
Abbreviation Store := (list Frame).

(** Computations that read and extend the store. *)
Definition M (A : Type) : Type := Store → A * Store.

#[global] Instance M_ret : MRet M := λ A a h, (a, h).
#[global] Instance M_bind : MBind M :=
  λ A B k m h, let '(a, h') := m h in k a h'.
#[global] Instance M_fmap : FMap M :=
  λ A B g m h, let '(a, h') := m h in (g a, h').

(** The rows of the frame at [l]. *)
Definition rows_at (l : loc) (h : Store) : Frame := default [] (h !! l).

Definition read (l : loc) : M Frame := λ h, (rows_at l h, h).

(** A new object holding [f]. *)
Definition alloc (f : Frame) : M loc := λ h, (length h, h ++ [f]).

(** [df.copy()]. *)
Definition copy (l : loc) : M loc := f ← read l; alloc f.

(** [df[mask]] for a boolean mask computed row by row: a new frame with the
    rows where the mask holds, in order. *)
Definition getitem_mask (l : loc) (P : Row → Prop) `{!∀ r, Decision (P r)}
  : M loc :=
  f ← read l; alloc (filter P f).

(** [df[col] = values] for values computed row by row: the object at [l]
    itself is updated. *)
Definition setitem (l : loc) (g : Row → Row) : M unit :=
  λ h, (tt, <[l := g <$> rows_at l h]> h).

(** [Series.unique()]: the distinct values in order of first appearance. *)
Fixpoint unique (l : list string) : list string :=
  match l with
  | [] => []
  | x :: l' => x :: filter (λ y, y ≠ x) (unique l')
  end.

(** How often [k] occurs in a column. *)
Definition count (k : string) (l : list string) : nat :=
  length (filter (λ y, y = k) l).

(** Descending order of counts, the order [value_counts] sorts by. *)
Definition by_count_desc (a b : string * nat) : Prop := (b.2 ≤ a.2)%nat.

#[global] Instance by_count_desc_dec a b : Decision (by_count_desc a b).
Proof. unfold by_count_desc. apply _. Defined.

(** The sort behind [value_counts] is stable: an entry goes in front of the
    first entry that is not more frequent than it, so entries with equal
    counts stay in the order they came in. *)
Fixpoint insert_by_count (x : string * nat) (l : list (string * nat))
  : list (string * nat) :=
  match l with
  | [] => [x]
  | y :: l' =>
      if decide (x.2 < y.2)%nat then y :: insert_by_count x l' else x :: l
  end.

Definition sort_by_count (l : list (string * nat)) : list (string * nat) :=
  foldr insert_by_count [] l.

(** [Series.value_counts()]: each distinct value with its number of rows,
    most frequent first; values with equal counts in order of first
    appearance. *)
Definition value_counts (l : list string) : list (string * nat) :=
  sort_by_count ((λ k, (k, count k l)) <$> unique l).

(** [.head(n).index] of a [value_counts] result. *)
Definition head_index (n : nat) (vc : list (string * nat)) : list string :=
  fst <$> take n vc.

End Pandas.

(** ** Plotly Express figures

    A figure is kept as the data it carries: one trace per value of the
    colour column, in order of first appearance, each with the points of its
    rows.  Binning and counting happen when the figure is drawn; titles and
    colours are left out. *)
Module Plotly.
Import Pandas.

(** [px.pie(frame, names=...)]: one label per row; a sector's size is the
    number of rows carrying its label. *)
Record Pie := { pie_labels : list string }.

Definition pie_count (fig : Pie) (label : string) : nat :=
  count label (pie_labels fig).

(** [px.histogram(frame, x=..., color=...)] and [px.box]. *)
Record Traces (X : Type) := {
  traces : list (string * list X);
  nbins : option nat;
  category_order : list string
}.
Arguments traces {X} _.
Arguments nbins {X} _.
Arguments category_order {X} _.

Section build.
Context {R X : Type}.

(** The rows of [frame] split by the value of [color], each row reduced to
    its point [x]. *)
Definition split_by (color : R → string) (x : R → X) (frame : list R)
  : list (string * list X) :=
  (λ c, (c, x <$> filter (λ r, color r = c) frame))
    <$> unique (color <$> frame).

Definition histogram (x : R → X) (color : R → string)
    (bins : option nat) (order : list string) (frame : list R) : Traces X :=
  {| traces := split_by color x frame;
     nbins := bins;
     category_order := order |}.

End build.

(** Every [x] value a figure shows. *)
Definition shown {X} (fig : Traces X) : list X :=
  mjoin (snd <$> traces fig).

End Plotly.

(** ** The callback (lines 172-231) *)
Module Dashboard.
Import Time Table Pandas Plotly.

(** The six figures the callback returns, under the names of its local
    variables. *)
Record Figures := {
  pie_fig : Pie;
  age_gender_fig : Traces Z;
  weekday_fig : Traces string;
  nb_fig : Traces string;
  chronic_fig : Traces (option string);
  delay_fig : Traces (string * Z)
}.

(** Python's truth value of the dropdown's value: [None] and the empty
    string are false. *)
Definition truthy (v : option string) : bool :=
  match v with
  | Some s => bool_decide (s ≠ "")
  | None => false
  end.

(** A sum of 64-bit integers as the machine keeps it: reduced into
    [[-2^63, 2^63)]. *)
Definition wrap_int64 (z : Z) : Z := (z + 2 ^ 63) `mod` 2 ^ 64 - 2 ^ 63.

(** Line 214: [dff['HasChronic'] = dff[[...]].sum(axis=1)], a row sum of
    three [int64] columns. *)
Definition set_HasChronic (r : Row) : Row :=
  {| Gender := Gender r; ScheduledDay := ScheduledDay r;
     AppointmentDay := AppointmentDay r; Age := Age r;
     Neighbourhood := Neighbourhood r; Hipertension := Hipertension r;
     Diabetes := Diabetes r; Alcoholism := Alcoholism r;
     No_show := No_show r; DaysDiff := DaysDiff r;
     No_show_flag := No_show_flag r;
     AppointmentWeekday := AppointmentWeekday r;
     HasChronic :=
       Some (wrap_int64 (Hipertension r + Diabetes r + Alcoholism r));
     ChronicCondition := ChronicCondition r |}.

(** The lambda of line 215. *)
Definition chronic_label (x : Z) : string :=
  if decide (0 < x) then "Yes" else "No".

(** Line 215: [dff['ChronicCondition'] = dff['HasChronic'].apply(...)]. *)
Definition set_ChronicCondition (r : Row) : Row :=
  {| Gender := Gender r; ScheduledDay := ScheduledDay r;
     AppointmentDay := AppointmentDay r; Age := Age r;
     Neighbourhood := Neighbourhood r; Hipertension := Hipertension r;
     Diabetes := Diabetes r; Alcoholism := Alcoholism r;
     No_show := No_show r; DaysDiff := DaysDiff r;
     No_show_flag := No_show_flag r;
     AppointmentWeekday := AppointmentWeekday r;
     HasChronic := HasChronic r;
     ChronicCondition := chronic_label <$> HasChronic r |}.

(** Line 205: [dff['Neighbourhood'].value_counts().head(20).index]. *)
Definition top_nb (dff : Frame) : list string :=
  head_index 20 (value_counts (Neighbourhood <$> dff)).

Definition px_pie (l : loc) (names : Row → string) : M Pie :=
  f ← read l; mret {| pie_labels := names <$> f |}.

Definition px_histogram {X} (l : loc) (x : Row → X) (color : Row → string)
    (bins : option nat) (order : list string) : M (Traces X) :=
  f ← read l; mret (histogram x color bins order f).

(** [px.box(frame, x=..., y=..., color=...)] with the colour column on the
    x axis, as at line 223: Plotly Express then fixes the order of the
    categories of that axis to the colour values, in trace order. *)
Definition px_box (l : loc) (x : Row → string) (y : Row → Z)
    (color : Row → string) : M (Traces (string * Z)) :=
  f ← read l;
  mret (histogram (λ r, (x r, y r)) color None (unique (color <$> f)) f).

(** [update_charts(selected_neighborhood, age_range)], with the global [df]
    it reads passed as the location of the cleaned table.  The range slider
    always delivers the two ends of the range, here a pair. *)
Definition update_charts (df : loc) (selected_neighborhood : option string)
    (age_range : Z * Z) : M Figures :=
  dff ← copy df;                                               (* 173 *)
  dff ← (if truthy selected_neighborhood                       (* 177 *)
         then getitem_mask dff
                (λ r, Some (Neighbourhood r) = selected_neighborhood)
         else mret dff);
  dff ← getitem_mask dff                                       (* 181 *)
          (λ r, age_range.1 ≤ Age r ∧ Age r ≤ age_range.2);
  pie_fig ← px_pie dff No_show;                                (* 184 *)
  age_gender_fig ← px_histogram dff Age Gender (Some 40%nat) [];  (* 190 *)
  weekday_fig ←                                                (* 197 *)
    px_histogram dff AppointmentWeekday No_show None weekday_names;
  top ← top_nb <$> read dff;                                   (* 205 *)
  shown_nb ← getitem_mask dff (λ r, Neighbourhood r ∈ top);    (* 207 *)
  nb_fig ← px_histogram shown_nb Neighbourhood No_show None [];
  _ ← setitem dff set_HasChronic;                              (* 214 *)
  _ ← setitem dff set_ChronicCondition;                        (* 215 *)
  chronic_fig ← px_histogram dff ChronicCondition No_show None [];  (* 216 *)
  delay_fig ← px_box dff No_show DaysDiff No_show;             (* 223 *)
  mret {| pie_fig := pie_fig; age_gender_fig := age_gender_fig;
          weekday_fig := weekday_fig; nb_fig := nb_fig;
          chronic_fig := chronic_fig; delay_fig := delay_fig |}.

(** The rows of [dff] once lines 177-181 have run on a table [rows]. *)
Definition dff_rows (selected_neighborhood : option string)
    (age_range : Z * Z) (rows : Frame) : Frame :=
  filter (λ r, age_range.1 ≤ Age r ∧ Age r ≤ age_range.2)
    (if truthy selected_neighborhood
     then filter (λ r, Some (Neighbourhood r) = selected_neighborhood) rows
     else rows).

(** §4.4's condition on the neighbourhood, as the spec words it: no filter
    when there is no selector, an exact match with the selector otherwise. *)
Definition selected_by (selector : option string) (r : Row) : Prop :=
  match selector with
  | Some s => Neighbourhood r = s
  | None => True
  end.

#[global] Instance selected_by_dec selector r :
  Decision (selected_by selector r).
Proof. destruct selector; simpl; apply _. Defined.

(** The same condition as the callback reads it: a selector counts as set
    by its truth value, so the empty string, like [None], asks for no
    neighbourhood. *)
Definition matches_selector (selector : option string) (r : Row) : Prop :=
  truthy selector → Some (Neighbourhood r) = selector.

#[global] Instance matches_selector_dec selector r :
  Decision (matches_selector selector r).
Proof. unfold matches_selector. apply _. Defined.

(** The six views of §4.4 (a)-(f) of a given set of rows, in the form the
    callback returns them.  Used to say which rows a call aggregates. *)
Definition views (rows : Frame) : Figures :=
  let chronic := set_ChronicCondition <$> (set_HasChronic <$> rows) in
  {| pie_fig := {| pie_labels := No_show <$> rows |};
     age_gender_fig := histogram Age Gender (Some 40%nat) [] rows;
     weekday_fig :=
       histogram AppointmentWeekday No_show None weekday_names rows;
     nb_fig :=
       histogram Neighbourhood No_show None []
         (filter (λ r, Neighbourhood r ∈ top_nb rows) rows);
     chronic_fig := histogram ChronicCondition No_show None [] chronic;
     delay_fig :=
       histogram (λ r, (No_show r, DaysDiff r)) No_show None
         (unique (No_show <$> chronic)) chronic |}.

End Dashboard.

(** ** The layout (lines 67-152)

    Of the page layout only the part computed from the data is kept: the
    options of the neighbourhood dropdown. *)
Module Layout.
Import Table Pandas.

(** Python's order on [str]: lexicographic by code point. *)
Definition str_le (a b : string) : Prop :=
  OrdersEx.String_as_OT.compare a b ≠ Gt.

#[global] Instance str_le_dec a b : Decision (str_le a b).
Proof. unfold str_le. apply _. Defined.

(** [sorted(...)] on a list of strings. *)
Definition sorted (l : list string) : list string := merge_sort str_le l.

(** Line 83: the values offered by the dropdown,
    [sorted(df['Neighbourhood'].unique())]; each option's label is its
    value. *)
Definition dropdown_options (df : Frame) : list string :=
  sorted (unique (Neighbourhood <$> df)).

End Layout.

(** ** Shapes of texts and figures, used to state properties *)
Module Shape.
Import Plotly Dashboard.

(** A text neither starts nor ends with a whitespace character. *)
Definition trimmed (s : string) : Prop :=
  let cs := String.list_ascii_of_string s in
  ∀ c, head cs = Some c ∨ last cs = Some c → Str.isspace c = false.

(** All characters of [cs] are whitespace. *)
Definition blank (cs : list ascii) : Prop :=
  Forall (λ c, Str.isspace c = true) cs.

(** In [l] an occurrence of [y] follows an occurrence of [x]. *)
Definition before {A} (x y : A) (l : list A) : Prop :=
  ∃ l1 l2, l = l1 ++ x :: l2 ∧ y ∈ l2.

(** The traces of a figure carry distinct names and none is empty. *)
Definition well_split {X} (fig : Traces X) : Prop :=
  NoDup (fst <$> traces fig) ∧ Forall (λ t, t.2 ≠ []) (traces fig).

(** The six figures of a call that found no row. *)
Definition empty_figures : Figures :=
  {| pie_fig := {| pie_labels := [] |};
     age_gender_fig :=
       {| traces := []; nbins := Some 40%nat; category_order := [] |};
     weekday_fig :=
       {| traces := []; nbins := None;
          category_order := Time.weekday_names |};
     nb_fig := {| traces := []; nbins := None; category_order := [] |};
     chronic_fig := {| traces := []; nbins := None; category_order := [] |};
     delay_fig := {| traces := []; nbins := None; category_order := [] |} |}.

End Shape.

(** ** Sample records *)
Module Samples.
Import Table.

(** A record with the given days, age, neighbourhood and outcome; a woman
    with no chronic condition unless said otherwise. *)
Definition record (scheduled appointment : string) (age : Z)
    (neighbourhood no_show : string) : RawRow :=
  {| raw_Gender := "F";
     raw_ScheduledDay := scheduled;
     raw_AppointmentDay := appointment;
     raw_Age := age;
     raw_Neighbourhood := neighbourhood;
     raw_Hipertension := 0;
     raw_Diabetes := 0;
     raw_Alcoholism := 0;
     raw_No_show := no_show |}.

(** Booked in the evening for a slot on the same calendar day.  The file
    records appointments by day only, so their time of day is midnight. *)
Definition same_day : RawRow :=
  record "2016-04-29T18:38:08Z" "2016-04-29T00:00:00Z" 62
         "JARDIM DA PENHA" "No".

(** Booked two calendar days ahead, in the morning. *)
Definition two_days_ahead : RawRow :=
  record "2016-04-27T08:36:51Z" "2016-04-29T00:00:00Z" 8
         "PONTAL DE CAMBURI" "No".

(** The appointment lies five days before its booking. *)
Definition booked_after : RawRow :=
  record "2016-05-10T00:00:00Z" "2016-05-05T00:00:00Z" 30 "CENTRO" "No".

Definition negative_age : RawRow :=
  record "2016-06-01T10:00:00Z" "2016-06-03T00:00:00Z" (-1) "CENTRO" "No".

Definition padded_yes : RawRow :=
  record "2016-04-27T00:00:00Z" "2016-04-29T00:00:00Z" 23
         " GOIABEIRAS " " Yes ".


Definition centenarian : RawRow :=
  record "2016-05-16T00:00:00Z" "2016-05-19T00:00:00Z" 115
         "ANDORINHAS" "Yes".

Definition hypertensive : RawRow :=
  {| raw_Gender := "M";
     raw_ScheduledDay := "2016-04-26T00:00:00Z";
     raw_AppointmentDay := "2016-04-29T00:00:00Z";
     raw_Age := 56;
     raw_Neighbourhood := "JARDIM DA PENHA";
     raw_Hipertension := 1;
     raw_Diabetes := 0;
     raw_Alcoholism := 0;
     raw_No_show := "Yes" |}.

(** A small raw table. *)
Definition sample_raw : list RawRow :=
  [same_day; two_days_ahead; padded_yes; negative_age; hypertensive;
   centenarian; booked_after].

(** Its cleaned table, and the cleaned table of the oldest patient alone. *)
Definition sample_df : Frame := default [] (Pipeline.clean sample_raw).

Definition centenarian_df : Frame :=
  default [] (Pipeline.clean [centenarian]).





(** A table in which one neighbourhood is blank, so empty once trimmed. *)
Definition blank_raw : list RawRow :=
  [record "2016-04-27T00:00:00Z" "2016-04-29T00:00:00Z" 40 " " "No";
   hypertensive].

Definition blank_df : Frame := default [] (Pipeline.clean blank_raw).

End Samples.

(** * Checks of the library models *)
Section checks.
Import Time Samples.

Example strip_padded : Str.strip "  JARDIM DA PENHA " = "JARDIM DA PENHA".
Proof. reflexivity. Qed.

Example strip_inner_kept : Str.strip "No show" = "No show".
Proof. reflexivity. Qed.

Example days_from_civil_epoch : days_from_civil 1970 1 1 = 0.
Proof. reflexivity. Qed.

Example days_from_civil_leap : days_from_civil 2000 3 1 = 11017.
Proof. reflexivity. Qed.

Example to_datetime_midnight :
  to_datetime "2016-05-10T00:00:00Z" = Some (16931 * NS_PER_DAY).
Proof. reflexivity. Qed.

Example to_datetime_instant :
  to_datetime "2016-04-29T18:38:08Z"
  = Some (16920 * NS_PER_DAY + 67088 * NS_PER_SECOND).
Proof. reflexivity. Qed.

Example to_datetime_rejects : to_datetime "2016-02-30T00:00:00Z" = None.
Proof. reflexivity. Qed.

(** Minus eight hours has [days = -1]. *)
Example timedelta_days_floor :
  timedelta_days 0 (8 * 3600 * NS_PER_SECOND) = -1.
Proof. reflexivity. Qed.

Example day_name_friday : day_name (16920 * NS_PER_DAY) = "Friday".
Proof. reflexivity. Qed.

Example value_counts_sample :
  Pandas.value_counts ["b"; "a"; "c"; "a"; "c"; "c"]
  = [("c", 3%nat); ("a", 2%nat); ("b", 1%nat)].
Proof. reflexivity. Qed.

(** Equal counts stay in order of first appearance. *)
Example value_counts_ties :
  Pandas.value_counts ["b"; "a"; "c"; "a"; "b"]
  = [("b", 2%nat); ("a", 2%nat); ("c", 1%nat)].
Proof. reflexivity. Qed.

Example wrap_int64_small : Dashboard.wrap_int64 3 = 3.
Proof. reflexivity. Qed.

Example wrap_int64_overflow :
  Dashboard.wrap_int64 (2 ^ 62 + 2 ^ 62) = - 2 ^ 63.
Proof. reflexivity. Qed.

End checks.

(** * Properties of the pipeline *)
Section pipeline_facts.
Import Time Table Pipeline.

Lemma stamp_raw r p : stamp r = Some p → st_raw p = r.
Proof.
  unfold stamp. intros H.
  destruct (to_datetime (raw_ScheduledDay r)) as [s|]; simpl in H; [|done].
  destruct (to_datetime (raw_AppointmentDay r)) as [a|]; simpl in H; [|done].
  by inversion H.
Qed.

(** The shape of a successful run: the surviving rows are the derived
    images of the stamped rows with a non-negative delay. *)
Lemma clean_Some raw out :
  clean raw = Some out →
  ∃ ps, mapM stamp (filter (λ r, 0 ≤ raw_Age r) raw) = Some ps
        ∧ out = derive <$> filter (λ p, 0 ≤ days_diff p) ps.
Proof.
  unfold clean. intros H.
  destruct (mapM stamp _) as [ps|]; simpl in H; [|done].
  exists ps. split; [done|]. by inversion H.
Qed.

(** Every row of the cleaned table comes from a raw row. *)
Lemma clean_elem raw out r :
  clean raw = Some out → r ∈ out →
  ∃ p, r = derive p ∧ 0 ≤ days_diff p ∧ st_raw p ∈ raw
       ∧ 0 ≤ raw_Age (st_raw p) ∧ stamp (st_raw p) = Some p.
Proof.
  intros (ps & Hps & ->)%clean_Some Hr.
  apply list_elem_of_fmap in Hr as (p & -> & Hp).
  apply list_elem_of_filter in Hp as [Hd Hp].
  apply mapM_Some_1 in Hps.
  apply list_elem_of_lookup in Hp as [i Hi].
  destruct (Forall2_lookup_r _ _ _ _ _ Hps Hi) as (x & Hx & Hs).
  apply list_elem_of_lookup_2 in Hx.
  pose proof (stamp_raw _ _ Hs) as <-.
  apply list_elem_of_filter in Hx as [? ?].
  exists p. done.
Qed.

(** Conversely, a raw row that passes both filters is in the cleaned
    table. *)
Lemma clean_keeps raw out r p :
  clean raw = Some out → r ∈ raw → 0 ≤ raw_Age r → stamp r = Some p →
  0 ≤ days_diff p → derive p ∈ out.
Proof.
  intros (ps & Hps & ->)%clean_Some Hr Ha Hs Hd.
  apply list_elem_of_fmap. exists p. split; [done|].
  apply list_elem_of_filter. split; [done|].
  apply mapM_Some_1 in Hps.
  assert (r ∈ filter (λ r, 0 ≤ raw_Age r) raw) as Hx
    by by apply list_elem_of_filter.
  apply list_elem_of_lookup in Hx as [i Hi].
  destruct (Forall2_lookup_l _ _ _ _ _ Hps Hi) as (y & Hy & Hs').
  apply list_elem_of_lookup_2 in Hy. congruence.
Qed.

(** The floor of a difference lies at most one below the difference of the
    floors. *)
Lemma days_diff_calendar p :
  calendar_days_diff p - 1 ≤ days_diff p ≤ calendar_days_diff p.
Proof.
  unfold days_diff, calendar_days_diff, timedelta_days, date.
  generalize (st_AppointmentDay p) (st_ScheduledDay p). intros a s.
  assert (0 < NS_PER_DAY) as Hd by done.
  generalize dependent NS_PER_DAY. intros d Hd.
  pose proof (Z.div_mod a d) as Ha. pose proof (Z.mod_pos_bound a d Hd).
  pose proof (Z.div_mod s d) as Hs. pose proof (Z.mod_pos_bound s d Hd).
  pose proof (Z.div_mod (a - s) d) as Hq.
  pose proof (Z.mod_pos_bound (a - s) d Hd).
  nia.
Qed.

(** It is one below exactly when the appointment's time of day is earlier
    than the booking's. *)
Lemma days_diff_exact p :
  days_diff p
  = calendar_days_diff p
    - (if decide (st_AppointmentDay p `mod` NS_PER_DAY
                  < st_ScheduledDay p `mod` NS_PER_DAY) then 1 else 0).
Proof.
  unfold days_diff, calendar_days_diff, timedelta_days, date.
  generalize (st_AppointmentDay p) (st_ScheduledDay p). intros a s.
  assert (0 < NS_PER_DAY) as Hd by done.
  generalize dependent NS_PER_DAY. intros d Hd.
  pose proof (Z.div_mod a d) as Ha. pose proof (Z.mod_pos_bound a d Hd).
  pose proof (Z.div_mod s d) as Hs. pose proof (Z.mod_pos_bound s d Hd).
  pose proof (Z.div_mod (a - s) d) as Hq.
  pose proof (Z.mod_pos_bound (a - s) d Hd).
  case_decide; nia.
Qed.

End pipeline_facts.

(** * Specified properties of the pipeline *)
Section pipeline_claims.
Import Time Table Pipeline Samples.

(** C1.  The spec asks for [days_diff] to be the appointment's calendar
    date minus the booking's calendar date.  The code takes the whole
    24-hour days of the difference of the two instants instead: a record
    booked at 18:38 for a slot on the same day has calendar difference 0 but
    [DaysDiff = -1], and line 42 drops it; a record booked two calendar days
    ahead gets [DaysDiff = 1]. *)
Theorem C1_days_diff_counts_whole_days_not_dates :
  (∃ p, stamp same_day = Some p ∧ calendar_days_diff p = 0
        ∧ days_diff p = -1)
  ∧ clean [same_day] = Some []
  ∧ (∃ p, stamp two_days_ahead = Some p ∧ calendar_days_diff p = 2
          ∧ days_diff p = 1)
  ∧ (λ out : Frame, DaysDiff <$> out) <$> clean [two_days_ahead] = Some [1].
Proof.
  split; [eexists; split; [reflexivity|]; split; reflexivity|].
  split; [reflexivity|].
  split; [eexists; split; [reflexivity|]; split; reflexivity|].
  reflexivity.
Qed.

(** The spec's own example for C1 holds: booked on 2016-05-10 for
    2016-05-05 gives [DaysDiff = -5], and the row is dropped. *)
Example booked_after_dropped :
  days_diff <$> stamp booked_after = Some (-5)
  ∧ clean [booked_after] = Some [].
Proof. split; reflexivity. Qed.

(** The half of C1 that holds in general: a surviving row never has a
    negative calendar difference. *)
Lemma cleaned_calendar_diff_nonneg raw out r :
  clean raw = Some out → r ∈ out →
  0 ≤ date (AppointmentDay r) - date (ScheduledDay r).
Proof.
  intros Hc Hr. destruct (clean_elem _ _ _ Hc Hr) as (p & -> & Hd & _).
  pose proof (days_diff_calendar p) as Hb.
  unfold calendar_days_diff in Hb. simpl. lia.
Qed.

(** C4.  Every row of the cleaned table has [Age ≥ 0] and [DaysDiff ≥ 0];
    and a raw row with a negative age is dropped entirely: taking it out of
    the input leaves the result of the pipeline as it is. *)
Theorem C4_cleaned_rows_within_bounds raw out :
  clean raw = Some out →
  Forall (λ r, 0 ≤ Age r ∧ 0 ≤ DaysDiff r) out
  ∧ ∀ before rr after,
      raw = before ++ rr :: after → raw_Age rr < 0 →
      clean (before ++ after) = Some out.
Proof.
  intros Hc. split.
  - apply Forall_forall. intros r Hr.
    destruct (clean_elem _ _ _ Hc Hr) as (p & -> & Hd & _ & Ha & _).
    done.
  - intros before rr after -> Hneg. rewrite <- Hc. unfold clean.
    rewrite !filter_app, filter_cons_False by lia. done.
Qed.

Lemma C4_witness :
  ∃ out, clean [negative_age; two_days_ahead] = Some out
         ∧ Forall (λ r, 0 ≤ Age r ∧ 0 ≤ DaysDiff r) out
         ∧ clean [two_days_ahead] = Some out.
Proof.
  eexists. split; [reflexivity|].
  destruct (C4_cleaned_rows_within_bounds [negative_age; two_days_ahead] _
              eq_refl) as [Hbounds Hdrop].
  split; [exact Hbounds|].
  apply (Hdrop [] negative_age [two_days_ahead]); [reflexivity|].
  vm_compute. reflexivity.
Defined.

(** C5.  In the cleaned table the outcome column is the trimmed raw text,
    [No_show_flag] is 1 exactly when the trimmed outcome is ["Yes"], and it
    is 0 when the trimmed outcome is ["No"]. *)
Theorem C5_flag_follows_trimmed_outcome raw out r :
  clean raw = Some out → r ∈ out →
  (∃ rr, rr ∈ raw ∧ No_show r = Str.strip (raw_No_show rr))
  ∧ (No_show_flag r = Some 1 ↔ No_show r = "Yes")
  ∧ (No_show r = "No" → No_show_flag r = Some 0).
Proof.
  intros Hc Hr.
  destruct (clean_elem _ _ _ Hc Hr) as (p & -> & _ & Hin & _).
  split; [by exists (st_raw p)|]. simpl. unfold no_show_flag.
  generalize (Str.strip (raw_No_show (st_raw p))). intros s.
  repeat case_decide; split; try split; intros; simplify_eq; done.
Qed.

(** The spec's example for C5: [" Yes "] is trimmed to ["Yes"] and mapped
    to 1. *)
Lemma C5_witness :
  ∃ r, clean [padded_yes] = Some [r]
       ∧ raw_No_show padded_yes = " Yes "
       ∧ No_show r = "Yes" ∧ No_show_flag r = Some 1.
Proof.
  eexists. split; [reflexivity|]. split; [reflexivity|].
  split; [reflexivity|].
  eapply (C5_flag_follows_trimmed_outcome [padded_yes]);
    [reflexivity | apply list_elem_of_here | reflexivity].
Defined.




End pipeline_claims.

(** * Properties of the store and of the callback *)
Section store_facts.
Import Table Pandas Plotly Dashboard.

Lemma rows_at_Some (l : loc) (h : Store) f :
  h !! l = Some f → rows_at l h = f.
Proof. unfold rows_at. by intros ->. Qed.

Lemma rows_at_new (h : Store) f h' : rows_at (length h) (h ++ f :: h') = f.
Proof. unfold rows_at. by rewrite list_lookup_middle. Qed.

Lemma rows_at_app_r (h h' : Store) n :
  rows_at (length h + n)%nat (h ++ h') = rows_at n h'.
Proof.
  unfold rows_at. rewrite lookup_app_r by lia.
  by replace (length h + n - length h)%nat with n by lia.
Qed.

Lemma insert_new (h : Store) f g h' :
  <[length h := g]> (h ++ f :: h') = h ++ g :: h'.
Proof. by rewrite insert_app_r_alt, Nat.sub_diag by lia. Qed.

Lemma insert_app_new (h h' : Store) n g :
  <[(length h + n)%nat := g]> (h ++ h') = h ++ <[n := g]> h'.
Proof. apply insert_app_r. Qed.

(** How each operation acts on a store. *)
Lemma bind_run {A B} (m : M A) (k : A → M B) h :
  (m ≫= k) h = let '(a, h') := m h in k a h'.
Proof. reflexivity. Qed.

Lemma fmap_run {A B} (m : M A) (g : A → B) h :
  (g <$> m) h = let '(a, h') := m h in (g a, h').
Proof. reflexivity. Qed.

Lemma ret_run {A} (a : A) (h : Store) : mret (M := M) a h = (a, h).
Proof. reflexivity. Qed.

Lemma read_run l h : read l h = (rows_at l h, h).
Proof. reflexivity. Qed.

Lemma copy_run l h : copy l h = (length h, h ++ [rows_at l h]).
Proof. reflexivity. Qed.

Lemma getitem_mask_run l (P : Row → Prop) `{!∀ r, Decision (P r)} h :
  getitem_mask l P h = (length h, h ++ [filter P (rows_at l h)]).
Proof. reflexivity. Qed.

Lemma setitem_run l g h :
  setitem l g h = (tt, <[l := g <$> rows_at l h]> h).
Proof. reflexivity. Qed.

Lemma px_pie_run l names h :
  px_pie l names h = ({| pie_labels := names <$> rows_at l h |}, h).
Proof. reflexivity. Qed.

Lemma px_histogram_run {X} l (x : Row → X) color bins order h :
  px_histogram l x color bins order h
  = (histogram x color bins order (rows_at l h), h).
Proof. reflexivity. Qed.

Lemma px_box_run l x y color h :
  px_box l x y color h
  = (histogram (λ r, (x r, y r)) color None
       (unique (color <$> rows_at l h)) (rows_at l h), h).
Proof. reflexivity. Qed.

(** One statement of the callback: run it, then bring the store and the
    locations back to the form [h ++ new frames] and [length h + n]. *)
Ltac run_step :=
  rewrite ?bind_run, ?fmap_run;
  first [ rewrite copy_run | rewrite getitem_mask_run | rewrite setitem_run
        | rewrite read_run | rewrite px_pie_run | rewrite px_histogram_run
        | rewrite px_box_run ];
  cbv beta iota zeta;
  rewrite <- ?app_assoc, ?length_app; cbn [app length];
  rewrite ?insert_new, ?rows_at_new, ?insert_app_new, ?rows_at_app_r;
  cbn [rows_at lookup list_lookup default insert list_insert from_option id].

(** What a call returns and what it leaves in the store: the figures are
    the six views of [dff_rows], and the store grows by the copy of [df],
    the neighbourhood selection when there is one, [dff] with its two added
    columns, and the frame behind the neighbourhood chart.  Nothing that was
    in the store before is touched. *)
Lemma update_charts_run (h : Store) df rows sel rng :
  h !! df = Some rows →
  let dff := dff_rows sel rng rows in
  update_charts df sel rng h
  = (views dff,
     h ++ rows
       :: (if truthy sel
           then [filter (λ r, Some (Neighbourhood r) = sel) rows] else [])
       ++ [set_ChronicCondition <$> (set_HasChronic <$> dff);
           filter (λ r, Neighbourhood r ∈ top_nb dff) dff]).
Proof.
  intros Hdf. pose proof (rows_at_Some _ _ _ Hdf) as Hrows.
  unfold update_charts, dff_rows.
  run_step. rewrite Hrows.
  destruct (truthy sel).
  - do 12 run_step. reflexivity.
  - rewrite bind_run, ret_run. cbv beta iota zeta.
    do 11 run_step. reflexivity.
Qed.

Lemma update_charts_figures (h : Store) df rows sel rng :
  h !! df = Some rows →
  (update_charts df sel rng h).1 = views (dff_rows sel rng rows).
Proof. intros Hdf. by rewrite (update_charts_run _ _ _ _ _ Hdf). Qed.

End store_facts.

(** * Properties of the column and figure operations *)
Section column_facts.
Import Pandas Plotly.

Lemma elem_of_unique x l : x ∈ unique l ↔ x ∈ l.
Proof.
  induction l as [|a l IH]; simpl; [done|].
  rewrite !elem_of_cons, list_elem_of_filter, IH.
  destruct (decide (x = a)); tauto.
Qed.

Lemma NoDup_unique l : NoDup (unique l).
Proof.
  induction l as [|a l IH]; simpl; [constructor|].
  apply NoDup_cons. split; [|by apply NoDup_filter].
  rewrite list_elem_of_filter. tauto.
Qed.

(** Counting a value in a column is counting the rows that carry it. *)
Lemma count_fmap {R} (f : R → string) k (frame : list R) :
  count k (f <$> frame) = length (filter (λ r, f r = k) frame).
Proof.
  unfold count. induction frame as [|r frame IH]; [done|].
  rewrite fmap_cons, !filter_cons.
  destruct (decide (f r = k)); rewrite ?length_cons, IH; done.
Qed.


(** The stable sort rearranges its input, most frequent first, and among
    entries with one and the same count it changes nothing. *)
Lemma insert_by_count_perm x l : insert_by_count x l ≡ₚ x :: l.
Proof.
  induction l as [|y l IH]; simpl; [done|].
  case_decide; [|done]. rewrite IH. apply Permutation_swap.
Qed.

Lemma sort_by_count_perm l : sort_by_count l ≡ₚ l.
Proof.
  induction l as [|x l IH]; simpl; [done|].
  by rewrite insert_by_count_perm, IH.
Qed.





(** The facts about [value_counts] everything else rests on: it lists each
    distinct value once with its count, and it is sorted. *)
Lemma value_counts_perm l :
  value_counts l ≡ₚ (λ k, (k, count k l)) <$> unique l.
Proof. apply sort_by_count_perm. Qed.



Lemma value_counts_keys l : fst <$> value_counts l ≡ₚ unique l.
Proof.
  rewrite value_counts_perm, <- list_fmap_compose.
  by rewrite list_fmap_id.
Qed.













(** A figure shows the [x] value of every row it was built from. *)
Lemma elem_of_shown {R X} (xf : R → X) color bins order (frame : list R) x :
  x ∈ shown (histogram xf color bins order frame)
  ↔ ∃ r, r ∈ frame ∧ x = xf r.
Proof.
  unfold shown, histogram, split_by. simpl.
  rewrite list_elem_of_join. split.
  - intros (xs & Hx & Hxs).
    apply list_elem_of_fmap in Hxs as ([c xs'] & -> & Hc).
    apply list_elem_of_fmap in Hc as (c' & [= -> ->] & _). simpl in Hx.
    apply list_elem_of_fmap in Hx as (r & -> & Hr).
    apply list_elem_of_filter in Hr as [_ Hr]. eauto.
  - intros (r & Hr & ->).
    exists (xf <$> filter (λ r', color r' = color r) frame). split.
    + apply list_elem_of_fmap_2. by apply list_elem_of_filter.
    + apply list_elem_of_fmap.
      exists (color r, xf <$> filter (λ r', color r' = color r) frame).
      split; [done|]. apply list_elem_of_fmap. exists (color r).
      split; [done|]. apply elem_of_unique. by apply list_elem_of_fmap_2.
Qed.

(** Building a figure from a frame with rewritten rows is building it from
    the frame itself with the columns read through the rewriting. *)
Lemma split_by_fmap {R X} (g : R → R) (color color' : R → string)
    (xf xf' : R → X) (frame : list R) :
  (∀ r, r ∈ frame → color' (g r) = color r ∧ xf' (g r) = xf r) →
  split_by color' xf' (g <$> frame) = split_by color xf frame.
Proof.
  intros Hg. unfold split_by.
  assert (color' <$> (g <$> frame) = color <$> frame) as ->.
  { rewrite <- list_fmap_compose. apply list_fmap_ext.
    intros i r Hr. simpl. apply Hg. by eapply list_elem_of_lookup_2. }
  apply list_fmap_ext. intros _ c _. f_equal.
  clear -Hg. induction frame as [|r frame IH]; [done|].
  destruct (Hg r) as [Hc Hx]; [left|].
  rewrite fmap_cons, !filter_cons, Hc.
  destruct (decide (color r = c)); rewrite ?fmap_cons, ?Hx, IH; try done.
  all: intros r' Hr'; apply Hg; by right.
Qed.

End column_facts.

(** * Specified properties of the callback *)
Section callback_claims.
Import Time Table Pipeline Pandas Plotly Dashboard Samples.

Lemma filter_ext_in {A} (P Q : A → Prop) `{!∀ x, Decision (P x)}
    `{!∀ x, Decision (Q x)} (l : list A) :
  (∀ x, x ∈ l → P x ↔ Q x) → filter P l = filter Q l.
Proof.
  induction l as [|a l IH]; intros Hext; [done|].
  rewrite !filter_cons, IH by (intros; apply Hext; by right).
  apply decide_ext, Hext. by left.
Qed.

Lemma filter_all {A} (P : A → Prop) `{!∀ x, Decision (P x)} (l : list A) :
  Forall P l → filter P l = l.
Proof.
  induction 1 as [|a l Ha _ IH]; [done|].
  by rewrite filter_cons_True, IH.
Qed.

(** [dff] holds the rows §4.4 describes. *)
Lemma dff_rows_selection sel lo hi rows :
  dff_rows sel (lo, hi) rows
  = filter (λ r, matches_selector sel r ∧ lo ≤ Age r ∧ Age r ≤ hi) rows.
Proof.
  unfold dff_rows. destruct (truthy sel) eqn:Hset; simpl.
  - rewrite list_filter_filter. apply list_filter_iff. intros r.
    unfold matches_selector. rewrite Hset. simpl. tauto.
  - apply list_filter_iff. intros r.
    unfold matches_selector. rewrite Hset. simpl. tauto.
Qed.

(** With a falsy selector only the age range restricts [dff]. *)
Lemma dff_rows_falsy sel rng rows :
  truthy sel = false →
  dff_rows sel rng rows = filter (λ r, rng.1 ≤ Age r ∧ Age r ≤ rng.2) rows.
Proof. unfold dff_rows. by intros ->. Qed.

(** C3 does not hold as stated: the slider's full span stops at 100, and
    the cleaned table may hold older patients.  For the cleaned table of the
    115-year-old alone the call shows an empty pie, the whole table does
    not. *)
Lemma C3_counterexample :
  clean [centenarian] = Some centenarian_df
  ∧ (update_charts 0%nat None (0, 100) [centenarian_df]).1
    ≠ views centenarian_df.
Proof.
  split; [reflexivity|].
  intros H. apply (f_equal (λ figs, pie_labels (pie_fig figs))) in H.
  vm_compute in H. discriminate.
Qed.

(** C3, amended.  On a cleaned table, the call with no selector and the
    range [[0, 100]] returns the views of the cleaned rows aged at most
    100; they are the views of the entire cleaned table when no cleaned row
    is older than 100. *)
Theorem C3_full_span_covers_ages_up_to_100 raw rows (h : Store) df :
  clean raw = Some rows → h !! df = Some rows →
  (update_charts df None (0, 100) h).1
  = views (filter (λ r, Age r ≤ 100) rows)
  ∧ (Forall (λ r, Age r ≤ 100) rows →
     (update_charts df None (0, 100) h).1 = views rows).
Proof.
  intros Hc Hdf.
  assert ((update_charts df None (0, 100) h).1
          = views (filter (λ r, Age r ≤ 100) rows)) as Heq.
  { rewrite (update_charts_figures _ _ _ _ _ Hdf), dff_rows_falsy by done.
    f_equal. apply filter_ext_in. intros r Hr. simpl.
    destruct (clean_elem _ _ _ Hc Hr) as (p & -> & _ & _ & Ha & _).
    simpl. lia. }
  split; [done|]. intros Hall. by rewrite Heq, filter_all.
Qed.

Lemma C3_witness :
  (update_charts 0%nat None (0, 100) [sample_df]).1
  = views (filter (λ r, Age r ≤ 100) sample_df).
Proof.
  apply (C3_full_span_covers_ages_up_to_100 sample_raw sample_df
           [sample_df] 0%nat); reflexivity.
Defined.

(** The callback's reading of the selector agrees with the spec's except
    at the empty string. *)
Lemma matches_selector_selected_by sel r :
  sel ≠ Some "" → matches_selector sel r ↔ selected_by sel r.
Proof.
  intros Hsel. unfold matches_selector. destruct sel as [s|]; simpl.
  - rewrite bool_decide_true by congruence. split.
    + intros H. specialize (H I). congruence.
    + intros -> _. done.
  - tauto.
Qed.

(** C6 does not hold as stated: the empty string is a selector too, and
    the dropdown offers it when a neighbourhood is blank, but the callback
    takes it for no selector.  On a table with one blank neighbourhood the
    call with that selector shows both rows, the exact match only one. *)
Lemma C6_counterexample :
  clean blank_raw = Some blank_df
  ∧ "" ∈ Layout.dropdown_options blank_df
  ∧ pie_labels (pie_fig (update_charts 0%nat (Some "") (0, 100)
                           [blank_df]).1)
    = ["No"; "Yes"]
  ∧ No_show <$> filter (λ r, selected_by (Some "") r
                             ∧ 0 ≤ Age r ∧ Age r ≤ 100) blank_df
    = ["No"]
  ∧ (update_charts 0%nat (Some "") (0, 100) [blank_df]).1
    ≠ views (filter (λ r, selected_by (Some "") r
                          ∧ 0 ≤ Age r ∧ Age r ≤ 100) blank_df).
Proof.
  split; [reflexivity|]. split; [vm_compute; left|].
  split; [reflexivity|]. split; [reflexivity|].
  intros H. apply (f_equal (λ figs, pie_labels (pie_fig figs))) in H.
  vm_compute in H. discriminate.
Qed.

(** C6, amended.  For every selector other than the empty string and every
    range [[lo, hi]], the call works on exactly the rows of the table whose
    neighbourhood is the selector, when there is one, and whose age lies in
    the range, both ends included: its figures are the views of those rows,
    the frame [dff] it leaves in the store holds those rows, and the pie
    counts, for each outcome, the rows among them with that outcome. *)
Theorem C6_subset_is_the_selection (h : Store) df rows sel lo hi :
  h !! df = Some rows → sel ≠ Some "" →
  let subset :=
    filter (λ r, selected_by sel r ∧ lo ≤ Age r ∧ Age r ≤ hi) rows in
  let run := update_charts df sel (lo, hi) h in
  run.1 = views subset
  ∧ (∃ dff, (length h ≤ dff)%nat
       ∧ run.2 !! dff
         = Some (set_ChronicCondition <$> (set_HasChronic <$> subset)))
  ∧ ∀ outcome,
      pie_count (pie_fig run.1) outcome
      = length (filter (λ r, No_show r = outcome) subset).
Proof.
  intros Hdf Hsel subset run. subst run.
  rewrite (update_charts_run _ _ _ _ _ Hdf), dff_rows_selection.
  assert (filter (λ r, matches_selector sel r ∧ lo ≤ Age r ∧ Age r ≤ hi)
            rows = subset) as ->.
  { apply list_filter_iff. intros r.
    by rewrite (matches_selector_selected_by _ _ Hsel). }
  simpl. split; [done|]. split.
  - destruct (truthy sel).
    + exists (length h + 2)%nat. split; [lia|].
      by rewrite lookup_app_r, Nat.add_comm, Nat.add_sub by lia.
    + exists (length h + 1)%nat. split; [lia|].
      by rewrite lookup_app_r, Nat.add_comm, Nat.add_sub by lia.
  - intros outcome. unfold pie_count. simpl. apply count_fmap.
Qed.

(** The spec's example: neighbourhood JARDIM DA PENHA, ages 18 to 65. *)
Lemma C6_witness :
  let run :=
    update_charts 0%nat (Some "JARDIM DA PENHA") (18, 65) [sample_df] in
  pie_count (pie_fig run.1) "Yes" = 1%nat
  ∧ pie_count (pie_fig run.1) "No" = 0%nat.
Proof.
  destruct (C6_subset_is_the_selection [sample_df] 0%nat sample_df
              (Some "JARDIM DA PENHA") 18 65 eq_refl) as (_ & _ & H);
    [discriminate|].
  split; rewrite H; vm_compute; reflexivity.
Defined.

(** C10.  With a falsy selector, [None] or the empty string, the call
    applies no neighbourhood restriction whatever the age range: its
    figures are the views of all rows of the table within the range.  The
    empty string therefore never acts as an exact-match filter. *)
Theorem C10_falsy_selector_is_no_filter (h : Store) df rows sel lo hi :
  h !! df = Some rows → sel = None ∨ sel = Some "" →
  (update_charts df sel (lo, hi) h).1
  = views (filter (λ r, lo ≤ Age r ∧ Age r ≤ hi) rows).
Proof.
  intros Hdf Hsel.
  rewrite (update_charts_figures _ _ _ _ _ Hdf), dff_rows_falsy; [done|].
  by destruct Hsel as [-> | ->].
Qed.

Lemma C10_witness :
  (update_charts 0%nat (Some "") (0, 70) [sample_df]).1
  = views (filter (λ r, 0 ≤ Age r ∧ Age r ≤ 70) sample_df)
  ∧ pie_labels (pie_fig (update_charts 0%nat (Some "") (0, 70)
                           [sample_df]).1)
    = ["No"; "Yes"; "Yes"].
Proof.
  split.
  - apply (C10_falsy_selector_is_no_filter [sample_df] 0%nat sample_df
             (Some "") 0 70); [reflexivity | by right].
  - vm_compute. reflexivity.
Defined.



(** C8.  A call leaves the cleaned table as it was: the frame at [df], and
    every other frame that was in the store, is the same after the call,
    the added columns included, since they go to a frame created by the
    call.  The figures depend on the table and the two inputs only: any
    call with the same inputs on a store holding the same table, the store
    this call leaves behind among them, returns the same figures. *)
Theorem C8_callback_is_pure (h : Store) df rows sel rng :
  h !! df = Some rows →
  let run := update_charts df sel rng h in
  run.2 !! df = Some rows
  ∧ (∀ l f, h !! l = Some f → run.2 !! l = Some f)
  ∧ (∀ (h2 : Store) df2, h2 !! df2 = Some rows →
       (update_charts df2 sel rng h2).1 = run.1)
  ∧ (update_charts df sel rng run.2).1 = run.1.
Proof.
  intros Hdf run.
  assert (∀ l f, h !! l = Some f → run.2 !! l = Some f) as Hframe.
  { intros l f Hl. subst run.
    rewrite (update_charts_run _ _ _ _ _ Hdf). simpl.
    by apply lookup_app_l_Some. }
  assert (∀ (h2 : Store) df2, h2 !! df2 = Some rows →
            (update_charts df2 sel rng h2).1 = run.1) as Hsame.
  { intros h2 df2 Hdf2. subst run.
    by rewrite (update_charts_figures _ _ _ _ _ Hdf),
               (update_charts_figures _ _ _ _ _ Hdf2). }
  split; [by apply Hframe|]. split; [done|]. split; [done|].
  apply Hsame. by apply Hframe.
Qed.

Lemma C8_witness :
  (update_charts 0%nat (Some "GOIABEIRAS") (0, 100) [sample_df]).2 !! 0%nat
  = Some sample_df.
Proof.
  pose proof (C8_callback_is_pure [sample_df] 0%nat sample_df
                (Some "GOIABEIRAS") (0, 100) eq_refl) as (Hdf & _).
  exact Hdf.
Defined.

(** C9.  For the 0/1 flags of the data, the chronic-condition chart sorts
    each row of the filtered frame under ["Yes"] exactly when at least one
    of its three flags is set, and under ["No"] otherwise. *)
Theorem C9_chronic_condition_is_or_of_flags (h : Store) df rows sel rng :
  h !! df = Some rows →
  Forall (λ r, (Hipertension r = 0 ∨ Hipertension r = 1)
               ∧ (Diabetes r = 0 ∨ Diabetes r = 1)
               ∧ (Alcoholism r = 0 ∨ Alcoholism r = 1)) rows →
  chronic_fig (update_charts df sel rng h).1
  = histogram
      (λ r, Some (if decide (Hipertension r = 1 ∨ Diabetes r = 1
                             ∨ Alcoholism r = 1)
                  then "Yes" else "No"))
      No_show None [] (dff_rows sel rng rows).
Proof.
  intros Hdf Hflags. rewrite (update_charts_figures _ _ _ _ _ Hdf). simpl.
  unfold histogram. f_equal. rewrite <- list_fmap_compose.
  apply split_by_fmap. intros r Hr. split; [done|]. simpl.
  assert (r ∈ rows) as Hin.
  { unfold dff_rows in Hr. apply list_elem_of_filter in Hr as [_ Hr].
    destruct (truthy sel); [|done].
    by apply list_elem_of_filter in Hr as [_ ?]. }
  rewrite Forall_forall in Hflags.
  destruct (Hflags r Hin) as ([-> | ->] & [-> | ->] & [-> | ->]);
    reflexivity.
Qed.

Lemma C9_witness :
  traces (chronic_fig (update_charts 0%nat None (0, 100) [sample_df]).1)
  = [("No", [Some "No"]); ("Yes", [Some "No"; Some "Yes"])].
Proof.
  rewrite (C9_chronic_condition_is_or_of_flags [sample_df] 0%nat sample_df
             None (0, 100) eq_refl).
  - vm_compute. reflexivity.
  - match goal with |- ?P => apply (bool_decide_unpack P) end.
    vm_compute. exact I.
Defined.

End callback_claims.

(** * Further properties of the pipeline *)
Section pipeline_further.
Import Time Table Pipeline Samples.

Lemma days_diff_nonneg_iff p :
  0 ≤ days_diff p ↔ st_ScheduledDay p ≤ st_AppointmentDay p.
Proof.
  unfold days_diff, timedelta_days.
  generalize (st_AppointmentDay p) (st_ScheduledDay p). intros a s.
  assert (0 < NS_PER_DAY) as Hd by done.
  generalize dependent NS_PER_DAY. intros d Hd.
  pose proof (Z.div_mod (a - s) d) as Hq.
  pose proof (Z.mod_pos_bound (a - s) d Hd).
  split; intros; nia.
Qed.

Lemma mapM_stamp_raw l ps : mapM stamp l = Some ps → st_raw <$> ps = l.
Proof.
  intros H%mapM_Some_1.
  induction H as [|r p l ps Hs _ IH]; [done|].
  by rewrite fmap_cons, IH, (stamp_raw _ _ Hs).
Qed.

(** X1.  The delay filter compares the two instants: every row of the
    cleaned table has its appointment no earlier than its booking, with
    [DaysDiff] the number of full days between them; a raw row that passes
    the age filter is kept when its appointment is not earlier than its
    booking, and no row whose appointment is earlier is kept. *)
Theorem X1_delay_filter_compares_instants raw out :
  clean raw = Some out →
  (∀ r, r ∈ out →
     ScheduledDay r ≤ AppointmentDay r
     ∧ DaysDiff r * NS_PER_DAY ≤ AppointmentDay r - ScheduledDay r
       < (DaysDiff r + 1) * NS_PER_DAY)
  ∧ (∀ rr p, rr ∈ raw → 0 ≤ raw_Age rr → stamp rr = Some p →
       st_ScheduledDay p ≤ st_AppointmentDay p → derive p ∈ out)
  ∧ (∀ p, st_AppointmentDay p < st_ScheduledDay p → derive p ∉ out).
Proof.
  intros Hc. split; [|split].
  - intros r Hr. destruct (clean_elem _ _ _ Hc Hr) as (p & -> & Hd & _).
    split; [by apply days_diff_nonneg_iff|]. simpl.
    unfold days_diff, timedelta_days.
    assert (0 < NS_PER_DAY) as Hpos by done.
    pose proof (Z.div_mod (st_AppointmentDay p - st_ScheduledDay p)
                  NS_PER_DAY) as Hq.
    pose proof (Z.mod_pos_bound (st_AppointmentDay p - st_ScheduledDay p)
                  NS_PER_DAY Hpos).
    lia.
  - intros rr p Hrr Ha Hs Hle. eapply clean_keeps; eauto.
    by apply days_diff_nonneg_iff.
  - intros p Hlt Hin.
    destruct (clean_elem _ _ _ Hc Hin) as (p' & Heq & Hd & _).
    apply days_diff_nonneg_iff in Hd.
    apply (f_equal ScheduledDay) in Heq as Hs.
    apply (f_equal AppointmentDay) in Heq as Ha. simpl in Hs, Ha. lia.
Qed.

Lemma X1_witness :
  ∃ out, clean [same_day; two_days_ahead] = Some out
         ∧ Forall (λ r, ScheduledDay r ≤ AppointmentDay r) out
         ∧ length out = 1%nat.
Proof.
  eexists. split; [reflexivity|]. split; [|reflexivity].
  apply Forall_forall. intros r Hr.
  by apply (X1_delay_filter_compares_instants [same_day; two_days_ahead] _
              eq_refl).
Defined.

(** X3.  Cleaning keeps the order of the rows: the cleaned table is the
    image, row by row, of a selection of raw rows taken in their original
    order, so it is never longer than the raw table. *)
Theorem X3_cleaning_keeps_row_order raw out :
  clean raw = Some out →
  ∃ ps, out = derive <$> ps
        ∧ (st_raw <$> ps) `sublist_of` raw
        ∧ (length out ≤ length raw)%nat.
Proof.
  intros (ps & Hps & ->)%clean_Some.
  exists (filter (λ p, 0 ≤ days_diff p) ps).
  assert ((st_raw <$> filter (λ p, 0 ≤ days_diff p) ps) `sublist_of` raw)
    as Hsub.
  { transitivity (st_raw <$> ps).
    - apply fmap_sublist, sublist_filter.
    - rewrite (mapM_stamp_raw _ _ Hps). apply sublist_filter. }
  split; [done|]. split; [done|].
  apply sublist_length in Hsub. by rewrite !length_fmap in *.
Qed.

Lemma X3_witness :
  ∃ ps, default [] (clean sample_raw) = derive <$> ps
        ∧ (st_raw <$> ps) `sublist_of` sample_raw
        ∧ (length (default [] (clean sample_raw)) ≤ length sample_raw)%nat.
Proof.
  exact (X3_cleaning_keeps_row_order sample_raw
           (default [] (clean sample_raw)) eq_refl).
Defined.

(** X4.  [DaysDiff] against the calendar: in the cleaned table it is the
    difference of the two calendar dates, less one when the appointment's
    time of day is earlier than the booking's.  For an appointment recorded
    at midnight, as in the file, it is the calendar difference exactly when
    the booking was made at midnight too, and one less otherwise. *)
Theorem X4_days_diff_is_calendar_diff_less_carry raw out r :
  clean raw = Some out → r ∈ out →
  DaysDiff r
  = date (AppointmentDay r) - date (ScheduledDay r)
    - (if decide (AppointmentDay r `mod` NS_PER_DAY
                  < ScheduledDay r `mod` NS_PER_DAY) then 1 else 0)
  ∧ (AppointmentDay r `mod` NS_PER_DAY = 0 →
     DaysDiff r
     = date (AppointmentDay r) - date (ScheduledDay r)
       - (if decide (ScheduledDay r `mod` NS_PER_DAY = 0) then 0 else 1)).
Proof.
  intros Hc Hr. destruct (clean_elem _ _ _ Hc Hr) as (p & -> & _).
  simpl. pose proof (days_diff_exact p) as He.
  unfold calendar_days_diff in He. split; [done|].
  intros Hmid. rewrite He, Hmid.
  assert (0 < NS_PER_DAY) as Hpos by done.
  pose proof (Z.mod_pos_bound (st_ScheduledDay p) NS_PER_DAY Hpos).
  repeat case_decide; lia.
Qed.

Lemma X4_witness :
  ∃ r, clean [two_days_ahead] = Some [r]
       ∧ DaysDiff r = date (AppointmentDay r) - date (ScheduledDay r) - 1.
Proof.
  eexists. split; [reflexivity|].
  destruct (X4_days_diff_is_calendar_diff_less_carry [two_days_ahead] _ _
              eq_refl (list_elem_of_here _ _)) as [_ Hmidnight].
  rewrite Hmidnight; reflexivity.
Defined.

End pipeline_further.

(** * Properties of the text and weekday columns *)
Section text_and_weekday.
Import Time Table Pipeline Samples Shape.

Lemma rev_reverse {A} (l : list A) : rev l = reverse l.
Proof. apply rev_alt. Qed.

Lemma lstrip_split cs :
  ∃ pre, cs = pre ++ Str.lstrip cs ∧ blank pre.
Proof.
  induction cs as [|c cs (pre & Hcs & Hpre)]; simpl.
  - exists []. split; [done|constructor].
  - destruct (Str.isspace c) eqn:Hc.
    + exists (c :: pre). split; [simpl; by rewrite <- Hcs|by constructor].
    + exists []. split; [done|constructor].
Qed.

Lemma lstrip_head cs c : head (Str.lstrip cs) = Some c → Str.isspace c = false.
Proof.
  induction cs as [|c' cs IH]; simpl; [done|].
  destruct (Str.isspace c') eqn:Hc; [done|]. simpl. by intros [= <-].
Qed.

Lemma lstrip_id cs :
  (∀ c, head cs = Some c → Str.isspace c = false) → Str.lstrip cs = cs.
Proof.
  destruct cs as [|c cs]; simpl; [done|]. intros H. by rewrite (H c).
Qed.

Lemma rstrip_split cs :
  ∃ suf, cs = Str.rstrip cs ++ suf ∧ blank suf.
Proof.
  unfold Str.rstrip. destruct (lstrip_split (rev cs)) as (pre & Hcs & Hpre).
  exists (rev pre). split.
  - rewrite <- rev_app_distr, <- Hcs. by rewrite rev_involutive.
  - unfold blank in *. rewrite rev_reverse. by apply Forall_reverse.
Qed.

Lemma rstrip_last cs c : last (Str.rstrip cs) = Some c → Str.isspace c = false.
Proof.
  unfold Str.rstrip. rewrite rev_reverse, last_reverse. apply lstrip_head.
Qed.

Lemma rstrip_head cs c :
  head (Str.rstrip cs) = Some c → head cs = Some c.
Proof.
  destruct (rstrip_split cs) as (suf & Hcs & _). intros Hh.
  rewrite Hcs. destruct (Str.rstrip cs); [done|]. done.
Qed.

Lemma rstrip_id cs :
  (∀ c, last cs = Some c → Str.isspace c = false) → Str.rstrip cs = cs.
Proof.
  intros H. unfold Str.rstrip. rewrite lstrip_id, rev_involutive; [done|].
  intros c. rewrite rev_reverse, head_reverse. apply H.
Qed.

Lemma strip_chars s :
  String.list_ascii_of_string (Str.strip s)
  = Str.rstrip (Str.lstrip (String.list_ascii_of_string s)).
Proof. unfold Str.strip. apply String.list_ascii_of_string_of_list_ascii. Qed.

Lemma strip_trimmed s : trimmed (Str.strip s).
Proof.
  unfold trimmed. rewrite strip_chars. intros c [Hh|Hl].
  - apply rstrip_head in Hh. by eapply lstrip_head.
  - by eapply rstrip_last.
Qed.

(** X5.  After cleaning, the gender, the neighbourhood and the outcome of
    every row neither start nor end with whitespace. *)
Theorem X5_cleaned_text_is_trimmed raw out r :
  clean raw = Some out → r ∈ out →
  trimmed (Gender r) ∧ trimmed (Neighbourhood r) ∧ trimmed (No_show r).
Proof.
  intros Hc Hr. destruct (clean_elem _ _ _ Hc Hr) as (p & -> & _).
  simpl. auto using strip_trimmed.
Qed.

Lemma X5_witness :
  ∃ r, clean [padded_yes] = Some [r]
       ∧ Neighbourhood r = "GOIABEIRAS" ∧ trimmed (Neighbourhood r).
Proof.
  eexists. split; [reflexivity|]. split; [reflexivity|].
  eapply (X5_cleaned_text_is_trimmed [padded_yes]);
    [reflexivity | apply list_elem_of_here].
Defined.

(** X6.  Trimming removes nothing but whitespace at the two ends: the
    text is its trimmed form between two runs of whitespace, so whitespace
    inside is kept; and a text that neither starts nor ends with whitespace
    is left as it is, so trimming twice is trimming once. *)
Theorem X6_strip_removes_only_outer_whitespace s :
  (∃ pre suf,
     String.list_ascii_of_string s
     = pre ++ String.list_ascii_of_string (Str.strip s) ++ suf
     ∧ blank pre ∧ blank suf)
  ∧ (trimmed s → Str.strip s = s)
  ∧ Str.strip (Str.strip s) = Str.strip s.
Proof.
  assert (∀ t, trimmed t → Str.strip t = t) as Hid.
  { intros t Ht. unfold Str.strip, trimmed in *.
    rewrite lstrip_id, rstrip_id by (intros; apply Ht; auto).
    apply String.string_of_list_ascii_of_string. }
  split; [|split; [apply Hid|apply Hid, strip_trimmed]].
  rewrite strip_chars.
  destruct (lstrip_split (String.list_ascii_of_string s))
    as (pre & Hpre & Hbpre).
  destruct (rstrip_split (Str.lstrip (String.list_ascii_of_string s)))
    as (suf & Hsuf & Hbsuf).
  exists pre, suf. split; [|done]. rewrite Hpre at 1. by rewrite Hsuf at 1.
Qed.

Lemma X6_witness :
  Str.strip " JARDIM DA PENHA" = "JARDIM DA PENHA"
  ∧ Str.strip "JARDIM DA PENHA" = "JARDIM DA PENHA".
Proof.
  split; [reflexivity|].
  destruct (X6_strip_removes_only_outer_whitespace "JARDIM DA PENHA")
    as (_ & Hid & _).
  apply Hid. intros c [[= <-]|[= <-]]; reflexivity.
Defined.

Lemma day_name_index t :
  weekday_names !! Z.to_nat ((date t + 3) `mod` 7) = Some (day_name t).
Proof.
  unfold day_name.
  pose proof (Z.mod_pos_bound (date t + 3) 7 eq_refl) as Hb.
  destruct (weekday_names !! Z.to_nat ((date t + 3) `mod` 7)) eqn:E; [done|].
  apply lookup_ge_None in E. simpl in E. lia.
Qed.

(** X7.  The weekday of an instant is one of the seven names Monday to
    Sunday; a day later it is the next name, Sunday being followed by
    Monday; so a week later it is the same name. *)
Theorem X7_day_name_follows_the_week t :
  (∃ i, (i < 7)%nat
        ∧ weekday_names !! i = Some (day_name t)
        ∧ weekday_names !! ((i + 1) `mod` 7)%nat
          = Some (day_name (t + NS_PER_DAY)))
  ∧ day_name (t + 7 * NS_PER_DAY) = day_name t.
Proof.
  assert (∀ k, date (t + k * NS_PER_DAY) = date t + k) as Hdate.
  { intros k. unfold date. by rewrite Z.div_add. }
  pose proof (Z.mod_pos_bound (date t + 3) 7 eq_refl) as Hb.
  split.
  - exists (Z.to_nat ((date t + 3) `mod` 7)). split; [lia|].
    split; [apply day_name_index|].
    rewrite <- (Z.mul_1_l NS_PER_DAY) at 1.
    rewrite <- day_name_index, Hdate. f_equal.
    replace (date t + 1 + 3) with ((date t + 3) + 1) by lia.
    rewrite <- (Nat2Z.id (_ `mod` 7)%nat). f_equal.
    rewrite Nat2Z.inj_mod, Nat2Z.inj_add, Z2Nat.id by lia.
    rewrite Zplus_mod_idemp_l. done.
  - unfold day_name. rewrite Hdate. do 3 f_equal.
    replace (date t + 7 + 3) with ((date t + 3) + 1 * 7) by lia.
    apply Z.mod_add. done.
Qed.

(** X8.  Every weekday the weekday chart of a call shows, for a cleaned
    table, is one of the names in the chart's fixed order Monday to
    Sunday. *)
Theorem X8_weekdays_within_chart_order raw rows (h : Pandas.Store) df
    sel rng day :
  clean raw = Some rows → h !! df = Some rows →
  let fig := Dashboard.weekday_fig (Dashboard.update_charts df sel rng h).1 in
  day ∈ Plotly.shown fig → day ∈ Plotly.category_order fig.
Proof.
  intros Hc Hdf fig. subst fig.
  rewrite (update_charts_figures _ _ _ _ _ Hdf). simpl.
  rewrite elem_of_shown. intros (r & Hr & ->).
  assert (r ∈ rows) as Hin.
  { unfold Dashboard.dff_rows in Hr.
    apply list_elem_of_filter in Hr as [_ Hr].
    destruct (Dashboard.truthy sel); [|done].
    by apply list_elem_of_filter in Hr as [_ ?]. }
  destruct (clean_elem _ _ _ Hc Hin) as (p & -> & _). simpl.
  eapply list_elem_of_lookup_2, day_name_index.
Qed.

Lemma X8_witness :
  "Friday" ∈ weekday_names
  ∧ Plotly.shown
      (Dashboard.weekday_fig
         (Dashboard.update_charts 0%nat None (0, 100) [sample_df]).1)
    = ["Friday"; "Friday"; "Friday"].
Proof.
  split; [|reflexivity].
  apply (X8_weekdays_within_chart_order sample_raw sample_df [sample_df]
           0%nat None (0, 100) "Friday" eq_refl eq_refl).
  vm_compute. left.
Defined.

End text_and_weekday.

(** * Properties of the figures of a call *)
Section figures_further.
Import Time Table Pipeline Pandas Plotly Dashboard Samples Shape.

Lemma filter_none {A} (P : A → Prop) `{!∀ x, Decision (P x)} (l : list A) :
  (∀ x, x ∈ l → ¬ P x) → filter P l = [].
Proof.
  induction l as [|a l IH]; intros Hno; [done|].
  rewrite filter_cons_False by (apply Hno; by left).
  apply IH. intros x Hx. apply Hno. by right.
Qed.

(** Rows picked by one colour, then rows picked by other colours, are the
    rows picked by either. *)
Lemma filter_colour_cons {R} (color : R → string) c cs (frame : list R) :
  c ∉ cs →
  filter (λ r, color r = c) frame ++ filter (λ r, color r ∈ cs) frame
  ≡ₚ filter (λ r, color r ∈ c :: cs) frame.
Proof.
  intros Hc. induction frame as [|r frame IH]; [done|].
  rewrite !filter_cons.
  destruct (decide (color r = c)) as [Heq|Hne].
  - rewrite decide_False by (rewrite Heq; done).
    rewrite decide_True by (rewrite Heq; by left).
    simpl. by rewrite IH.
  - destruct (decide (color r ∈ cs)) as [Hin|Hnin].
    + rewrite decide_True by by right.
      rewrite <- Permutation_middle. by rewrite IH.
    + rewrite decide_False; [done|].
      intros [?|?]%elem_of_cons; done.
Qed.

Lemma split_colours_perm {R X} (color : R → string) (x : R → X) cs
    (frame : list R) :
  NoDup cs →
  mjoin ((λ c, x <$> filter (λ r, color r = c) frame) <$> cs)
  ≡ₚ x <$> filter (λ r, color r ∈ cs) frame.
Proof.
  induction 1 as [|c cs Hc _ IH]; simpl.
  - rewrite filter_none; [done|]. intros r _. apply not_elem_of_nil.
  - rewrite IH, <- fmap_app. by rewrite filter_colour_cons.
Qed.

(** A figure shows every row it was built from exactly once. *)
Lemma shown_perm {R X} (x : R → X) color bins order (frame : list R) :
  shown (histogram x color bins order frame) ≡ₚ x <$> frame.
Proof.
  unfold shown, histogram, split_by. simpl.
  rewrite <- list_fmap_compose.
  change (mjoin ((λ c, x <$> filter (λ r, color r = c) frame)
                   <$> unique (color <$> frame)) ≡ₚ x <$> frame).
  rewrite (split_colours_perm color x) by apply NoDup_unique.
  rewrite filter_all; [done|].
  apply Forall_forall. intros r Hr.
  apply elem_of_unique. by apply list_elem_of_fmap_2.
Qed.

Lemma histogram_well_split {R X} (x : R → X) color bins order
    (frame : list R) :
  well_split (histogram x color bins order frame).
Proof.
  unfold well_split, histogram, split_by. simpl. split.
  - rewrite <- list_fmap_compose.
    change (NoDup (id <$> unique (color <$> frame))).
    rewrite list_fmap_id. apply NoDup_unique.
  - apply Forall_forall. intros [c xs] Hin.
    apply list_elem_of_fmap in Hin as (c' & [= -> ->] & Hc).
    apply elem_of_unique, list_elem_of_fmap in Hc as (r & -> & Hr).
    simpl. intros Hnil. apply fmap_nil_inv in Hnil.
    assert (r ∈ filter (λ r', color r' = color r) frame) as Hrf
      by by apply list_elem_of_filter.
    rewrite Hnil in Hrf. by apply not_elem_of_nil in Hrf.
Qed.

(** X9.  Each chart of a call draws every row of the filtered frame
    exactly once: the pie has one label per row; the points of the age,
    weekday, chronic and delay charts are, up to their order, the values of
    the column over the rows; and the neighbourhood chart has one point per
    row whose neighbourhood made it into the top list. *)
Theorem X9_every_row_drawn_once (h : Store) df rows sel rng :
  h !! df = Some rows →
  let dff := dff_rows sel rng rows in
  let figs := (update_charts df sel rng h).1 in
  pie_labels (pie_fig figs) = No_show <$> dff
  ∧ shown (age_gender_fig figs) ≡ₚ Age <$> dff
  ∧ shown (weekday_fig figs) ≡ₚ AppointmentWeekday <$> dff
  ∧ shown (delay_fig figs) ≡ₚ (λ r, (No_show r, DaysDiff r)) <$> dff
  ∧ shown (chronic_fig figs)
    ≡ₚ (λ r, Some (chronic_label
                     (wrap_int64
                        (Hipertension r + Diabetes r + Alcoholism r))))
       <$> dff
  ∧ shown (nb_fig figs)
    ≡ₚ Neighbourhood <$> filter (λ r, Neighbourhood r ∈ top_nb dff) dff.
Proof.
  intros Hdf dff figs. subst figs.
  rewrite (update_charts_figures _ _ _ _ _ Hdf). fold dff. simpl.
  split; [done|]. split; [apply shown_perm|]. split; [apply shown_perm|].
  split; [|split].
  - rewrite shown_perm, <- !list_fmap_compose. done.
  - rewrite shown_perm, <- !list_fmap_compose. done.
  - apply shown_perm.
Qed.

Lemma X9_witness :
  let figs := (update_charts 0%nat None (0, 100) [sample_df]).1 in
  shown (age_gender_fig figs) ≡ₚ [8; 23; 56]
  ∧ shown (chronic_fig figs) ≡ₚ [Some "No"; Some "No"; Some "Yes"].
Proof.
  destruct (X9_every_row_drawn_once [sample_df] 0%nat sample_df None
              (0, 100) eq_refl) as (_ & Hage & _ & _ & Hchronic & _).
  split; [rewrite Hage|rewrite Hchronic]; reflexivity.
Defined.

(** X10.  In each chart of a call the traces carry distinct names, one per
    value of the colour column that occurs, and no trace is empty. *)
Theorem X10_traces_distinct_and_nonempty (h : Store) df rows sel rng :
  h !! df = Some rows →
  let figs := (update_charts df sel rng h).1 in
  well_split (age_gender_fig figs) ∧ well_split (weekday_fig figs)
  ∧ well_split (nb_fig figs) ∧ well_split (chronic_fig figs)
  ∧ well_split (delay_fig figs).
Proof.
  intros Hdf figs. subst figs.
  rewrite (update_charts_figures _ _ _ _ _ Hdf). simpl.
  repeat split; apply histogram_well_split.
Qed.

Lemma X10_witness :
  fst <$> traces (weekday_fig
                    (update_charts 0%nat None (0, 100) [sample_df]).1)
  = ["No"; "Yes"]
  ∧ well_split (weekday_fig
                  (update_charts 0%nat None (0, 100) [sample_df]).1).
Proof.
  split; [reflexivity|].
  apply (X10_traces_distinct_and_nonempty [sample_df] 0%nat sample_df None
           (0, 100) eq_refl).
Defined.

(** X11.  A selector that names a neighbourhood no row of the table has is
    no error: the call returns six empty figures. *)
Theorem X11_absent_neighbourhood_gives_empty_figures (h : Store) df rows
    s rng :
  h !! df = Some rows → s ≠ "" → s ∉ Neighbourhood <$> rows →
  (update_charts df (Some s) rng h).1 = empty_figures.
Proof.
  intros Hdf Hs Habsent.
  rewrite (update_charts_figures _ _ _ _ _ Hdf).
  assert (dff_rows (Some s) rng rows = []) as ->; [|reflexivity].
  unfold dff_rows. simpl. rewrite bool_decide_true by done.
  rewrite (filter_none (λ r, Some (Neighbourhood r) = Some s)); [done|].
  intros r Hr [= Heq]. apply Habsent. rewrite <- Heq.
  by apply list_elem_of_fmap_2.
Qed.

Lemma X11_witness :
  (update_charts 0%nat (Some "ILHA DO BOI") (0, 100) [sample_df]).1
  = empty_figures.
Proof.
  apply (X11_absent_neighbourhood_gives_empty_figures [sample_df] 0%nat
           sample_df "ILHA DO BOI" (0, 100) eq_refl); [done|].
  vm_compute. intros Hin.
  repeat (apply elem_of_cons in Hin as [Heq|Hin]; [discriminate Heq|]).
  by apply not_elem_of_nil in Hin.
Defined.

(** X12.  A range whose upper end lies below its lower end selects no row:
    the call returns six empty figures, whatever the selector. *)
Theorem X12_inverted_range_gives_empty_figures (h : Store) df rows sel
    lo hi :
  h !! df = Some rows → hi < lo →
  (update_charts df sel (lo, hi) h).1 = empty_figures.
Proof.
  intros Hdf Hinv.
  rewrite (update_charts_figures _ _ _ _ _ Hdf).
  assert (dff_rows sel (lo, hi) rows = []) as ->; [|reflexivity].
  unfold dff_rows. apply filter_none. simpl. intros r _. lia.
Qed.

Lemma X12_witness :
  (update_charts 0%nat None (65, 18) [sample_df]).1 = empty_figures.
Proof.
  apply (X12_inverted_range_gives_empty_figures [sample_df] 0%nat
           sample_df None 65 18 eq_refl). lia.
Defined.

Lemma top_nb_all dff :
  (length (unique (Neighbourhood <$> dff)) ≤ 20)%nat →
  ∀ r, r ∈ dff → Neighbourhood r ∈ top_nb dff.
Proof.
  intros Hfew r Hr. unfold top_nb, head_index.
  rewrite take_ge.
  - rewrite value_counts_keys. apply elem_of_unique.
    by apply list_elem_of_fmap_2.
  - rewrite <- (length_fmap fst), value_counts_keys. done.
Qed.

Lemma views_nb_fig_whole dff :
  (length (unique (Neighbourhood <$> dff)) ≤ 20)%nat →
  nb_fig (views dff) = histogram Neighbourhood No_show None [] dff.
Proof.
  intros Hfew. simpl. rewrite filter_all; [done|].
  apply Forall_forall. by apply top_nb_all.
Qed.

(** X13.  When the filtered frame has at most 20 distinct neighbourhoods,
    the neighbourhood chart leaves no row out: it is built from the whole
    filtered frame. *)
Theorem X13_few_neighbourhoods_all_drawn (h : Store) df rows sel rng :
  h !! df = Some rows →
  let dff := dff_rows sel rng rows in
  (length (unique (Neighbourhood <$> dff)) ≤ 20)%nat →
  nb_fig (update_charts df sel rng h).1
  = histogram Neighbourhood No_show None [] dff.
Proof.
  intros Hdf dff Hfew.
  rewrite (update_charts_figures _ _ _ _ _ Hdf). fold dff.
  by apply views_nb_fig_whole.
Qed.

Lemma X13_witness :
  nb_fig (update_charts 0%nat None (0, 120) [sample_df]).1
  = histogram Neighbourhood No_show None []
      (dff_rows None (0, 120) sample_df).
Proof.
  apply (X13_few_neighbourhoods_all_drawn [sample_df] 0%nat sample_df None
           (0, 120) eq_refl).
  vm_compute. lia.
Defined.

Lemma unique_constant s l :
  (∀ x, x ∈ l → x = s) → (length (unique l) ≤ 1)%nat.
Proof.
  intros Hall.
  assert (unique l = [] ∨ unique l = [s]) as [-> | ->]; simpl; try lia.
  induction l as [|x l IH]; [by left|]. right. simpl.
  rewrite (Hall x) by by left.
  destruct IH as [-> | ->]; [intros; apply Hall; by right|done|].
  by rewrite filter_cons_False, filter_nil by (intros ?; done).
Qed.

(** X14.  With a neighbourhood selected, the neighbourhood chart is not
    cut down at all: it is built from the whole filtered frame, and every
    point it shows is the selected neighbourhood. *)
Theorem X14_selected_neighbourhood_all_drawn (h : Store) df rows s rng :
  h !! df = Some rows → s ≠ "" →
  let fig := nb_fig (update_charts df (Some s) rng h).1 in
  fig = histogram Neighbourhood No_show None [] (dff_rows (Some s) rng rows)
  ∧ ∀ nb, nb ∈ shown fig → nb = s.
Proof.
  intros Hdf Hs fig.
  assert (∀ r, r ∈ dff_rows (Some s) rng rows → Neighbourhood r = s)
    as Hone.
  { unfold dff_rows. simpl. rewrite bool_decide_true by done.
    intros r [_ [[= Hr] _]%list_elem_of_filter]%list_elem_of_filter.
    done. }
  assert (fig = histogram Neighbourhood No_show None []
                  (dff_rows (Some s) rng rows)) as Hfig.
  { subst fig. rewrite (update_charts_figures _ _ _ _ _ Hdf).
    apply views_nb_fig_whole.
    etransitivity; [apply (unique_constant s)|lia].
    intros x (r & -> & Hr)%list_elem_of_fmap. by apply Hone. }
  split; [done|]. intros nb. rewrite Hfig, elem_of_shown.
  intros (r & Hr & ->). by apply Hone.
Qed.

Lemma X14_witness :
  shown (nb_fig (update_charts 0%nat (Some "GOIABEIRAS") (0, 100)
                   [sample_df]).1)
  = ["GOIABEIRAS"].
Proof.
  destruct (X14_selected_neighbourhood_all_drawn [sample_df] 0%nat sample_df
              "GOIABEIRAS" (0, 100) eq_refl) as [Hfig _]; [done|].
  rewrite Hfig. reflexivity.
Defined.

End figures_further.

(** * Properties of the dropdown and of how calls compose *)
Section layout_further.
Import Time Table Pipeline Pandas Plotly Dashboard Layout Samples Shape.

#[local] Instance str_le_total : Total str_le.
Proof.
  intros a b. unfold str_le.
  destruct (OrdersEx.String_as_OT.compare_spec a b) as [?|?|Hlt];
    [by left|by left|right].
  unfold OrdersEx.String_as_OT.lt in Hlt. by rewrite Hlt.
Qed.

#[local] Instance str_le_trans : Transitive str_le.
Proof.
  intros a b c. unfold str_le.
  destruct (OrdersEx.String_as_OT.compare_spec a b) as [->|Hab|?];
    [done| |done].
  destruct (OrdersEx.String_as_OT.compare_spec b c) as [<-|Hbc|?];
    [|  |done]; intros _ _.
  - unfold OrdersEx.String_as_OT.lt in Hab. by rewrite Hab.
  - pose proof (transitivity Hab Hbc) as Hac.
    unfold OrdersEx.String_as_OT.lt in Hac. by rewrite Hac.
Qed.

Lemma str_le_antisym a b : str_le a b → str_le b a → a = b.
Proof.
  unfold str_le.
  destruct (OrdersEx.String_as_OT.compare_spec a b) as [?|Hab|?];
    [done| |done].
  destruct (OrdersEx.String_as_OT.compare_spec b a) as [?|Hba|?];
    [done| |done].
  destruct (irreflexivity OrdersEx.String_as_OT.lt a).
  by transitivity b.
Qed.

Lemma sorted_perm l : sorted l ≡ₚ l.
Proof. apply merge_sort_Permutation. Qed.

(** X15.  The dropdown offers each neighbourhood of the table exactly
    once, and nothing else, in strictly ascending order, whatever the order
    of the rows. *)
Theorem X15_dropdown_lists_each_neighbourhood_once (df : Frame) :
  (∀ o, o ∈ dropdown_options df ↔ ∃ r, r ∈ df ∧ Neighbourhood r = o)
  ∧ NoDup (dropdown_options df)
  ∧ StronglySorted (λ a b, str_le a b ∧ a ≠ b) (dropdown_options df)
  ∧ ∀ df', df' ≡ₚ df → dropdown_options df' = dropdown_options df.
Proof.
  assert (∀ d o, o ∈ dropdown_options d ↔ ∃ r, r ∈ d ∧ Neighbourhood r = o)
    as Hmem.
  { intros d o. unfold dropdown_options.
    rewrite sorted_perm, elem_of_unique, list_elem_of_fmap.
    split; intros (r & ? & ?); exists r; done. }
  assert (∀ d, NoDup (dropdown_options d)) as Hnd.
  { intros d. unfold dropdown_options. rewrite sorted_perm.
    apply NoDup_unique. }
  assert (∀ d, StronglySorted str_le (dropdown_options d)) as Hsort.
  { intros d. apply StronglySorted_merge_sort; apply _. }
  split; [apply Hmem|]. split; [apply Hnd|]. split.
  - specialize (Hnd df). specialize (Hsort df).
    induction Hsort as [|a l _ IH Hall]; [constructor|].
    apply NoDup_cons in Hnd as [Ha Hnd].
    constructor; [by apply IH|].
    rewrite Forall_forall in Hall |- *. intros b Hb.
    split; [by apply Hall|]. by intros ->.
  - intros df' Hperm.
    apply (StronglySorted_unique_strong str_le); [|apply Hsort..|].
    + intros a b _ _. apply str_le_antisym.
    + apply NoDup_Permutation; [apply Hnd..|].
      intros o. rewrite !Hmem. by setoid_rewrite Hperm.
Qed.

Lemma X15_witness :
  dropdown_options sample_df
  = ["ANDORINHAS"; "GOIABEIRAS"; "JARDIM DA PENHA"; "PONTAL DE CAMBURI"]
  ∧ dropdown_options (reverse sample_df) = dropdown_options sample_df.
Proof.
  split; [reflexivity|].
  apply (X15_dropdown_lists_each_neighbourhood_once sample_df).
  apply reverse_Permutation.
Defined.

(** X16.  Every option of the dropdown other than the empty string finds
    rows: with a range that covers all ages of the table, selecting it gives
    a pie that is not empty, and only rows of that neighbourhood. *)
Theorem X16_every_option_finds_rows (h : Store) df rows o lo hi :
  h !! df = Some rows → o ∈ dropdown_options rows → o ≠ "" →
  Forall (λ r, lo ≤ Age r ∧ Age r ≤ hi) rows →
  let figs := (update_charts df (Some o) (lo, hi) h).1 in
  pie_labels (pie_fig figs) ≠ []
  ∧ ∀ nb, nb ∈ shown (nb_fig figs) → nb = o.
Proof.
  intros Hdf Ho Hne Hages figs. subst figs.
  rewrite (update_charts_figures _ _ _ _ _ Hdf). simpl.
  unfold dropdown_options in Ho.
  rewrite sorted_perm, elem_of_unique, list_elem_of_fmap in Ho.
  destruct Ho as (r & -> & Hr).
  assert (∀ r', r' ∈ dff_rows (Some (Neighbourhood r)) (lo, hi) rows
                ↔ r' ∈ rows ∧ Neighbourhood r' = Neighbourhood r) as Hdff.
  { intros r'. unfold dff_rows. simpl. rewrite bool_decide_true by done.
    rewrite !list_elem_of_filter. rewrite Forall_forall in Hages.
    split.
    - intros (_ & [= ?] & ?). done.
    - intros [? ->]. split; [by apply Hages|done]. }
  split.
  - intros Hnil. apply fmap_nil_inv in Hnil.
    assert (r ∈ dff_rows (Some (Neighbourhood r)) (lo, hi) rows) as Hin
      by by apply Hdff.
    rewrite Hnil in Hin. by apply not_elem_of_nil in Hin.
  - intros nb. rewrite elem_of_shown.
    intros (r' & [_ Hr']%list_elem_of_filter & ->). by apply Hdff.
Qed.

Lemma X16_witness :
  pie_labels (pie_fig (update_charts 0%nat (Some "ANDORINHAS") (0, 115)
                         [sample_df]).1)
  ≠ [].
Proof.
  apply (X16_every_option_finds_rows [sample_df] 0%nat sample_df
           "ANDORINHAS" 0 115 eq_refl).
  - vm_compute. left.
  - done.
  - vm_compute. repeat constructor; discriminate.
Defined.

(** X17.  On a cleaned table the pie's two sectors are the two values of
    the flag: ["Yes"] counts the rows of the filtered frame with
    [No_show_flag = 1] and ["No"] those with [No_show_flag = 0]. *)
Theorem X17_pie_sectors_count_the_flag raw rows (h : Store) df sel rng :
  clean raw = Some rows → h !! df = Some rows →
  let dff := dff_rows sel rng rows in
  let pie := pie_fig (update_charts df sel rng h).1 in
  pie_count pie "Yes" = length (filter (λ r, No_show_flag r = Some 1) dff)
  ∧ pie_count pie "No" = length (filter (λ r, No_show_flag r = Some 0) dff).
Proof.
  intros Hc Hdf dff pie. subst pie.
  rewrite (update_charts_figures _ _ _ _ _ Hdf). fold dff.
  unfold pie_count. simpl. rewrite !count_fmap.
  assert (∀ r, r ∈ dff → r ∈ rows) as Hsub.
  { intros r Hr. unfold dff, dff_rows in Hr.
    apply list_elem_of_filter in Hr as [_ Hr].
    destruct (truthy sel); [|done].
    by apply list_elem_of_filter in Hr as [_ ?]. }
  split; f_equal; apply filter_ext_in; intros r Hr;
    destruct (clean_elem _ _ _ Hc (Hsub r Hr)) as (p & -> & _); simpl;
    unfold no_show_flag;
    generalize (Str.strip (raw_No_show (st_raw p))); intros s;
    repeat case_decide; split; intros; simplify_eq; done.
Qed.

Lemma X17_witness :
  pie_count (pie_fig (update_charts 0%nat None (0, 100) [sample_df]).1)
            "Yes"
  = 2%nat.
Proof.
  destruct (X17_pie_sectors_count_the_flag sample_raw sample_df [sample_df]
              0%nat None (0, 100) eq_refl eq_refl) as [Hyes _].
  rewrite Hyes. reflexivity.
Defined.

(** X18.  Calls compose as filters do: narrowing the age range gives the
    views of the rows of the wider call's frame that lie in the narrower
    range, and setting a selector gives the views of the rows of the
    unselected call's frame that have the selected neighbourhood, where the
    empty string selects nothing in particular: like no selector, it keeps
    every row.  The filtered frame is always a selection of the table in
    table order. *)
Theorem X18_narrower_call_filters_wider_frame (h : Store) df rows sel
    lo hi lo' hi' :
  h !! df = Some rows → lo ≤ lo' → hi' ≤ hi →
  (update_charts df sel (lo', hi') h).1
  = views (filter (λ r, lo' ≤ Age r ∧ Age r ≤ hi')
             (dff_rows sel (lo, hi) rows))
  ∧ (update_charts df sel (lo, hi) h).1
    = views (filter (matches_selector sel) (dff_rows None (lo, hi) rows))
  ∧ dff_rows sel (lo, hi) rows `sublist_of` rows.
Proof.
  intros Hdf Hlo Hhi.
  rewrite !(update_charts_figures _ _ _ _ _ Hdf). split; [|split].
  - f_equal. rewrite !dff_rows_selection, list_filter_filter.
    apply list_filter_iff. intros r. intuition lia.
  - f_equal. rewrite !dff_rows_selection, list_filter_filter.
    apply list_filter_iff. intros r. unfold matches_selector at 3. simpl.
    tauto.
  - rewrite dff_rows_selection. apply sublist_filter.
Qed.

Lemma X18_witness :
  (update_charts 0%nat None (20, 60) [sample_df]).1
  = views (filter (λ r, 20 ≤ Age r ∧ Age r ≤ 60)
             (dff_rows None (0, 100) sample_df)).
Proof.
  apply (X18_narrower_call_filters_wider_frame [sample_df] 0%nat sample_df
           None 0 100 20 60 eq_refl); lia.
Defined.

End layout_further.
